(** * coc-snippets, [src/sniphubProvider.ts]: a shallow embedding

    The provider keeps a catalog of records fetched from a remote store,
    converts them to snippets, and answers, for a document and a cursor
    position, which snippets may be expanded and over which range.

    Conventions of the embedding:
    - a JavaScript string is the list of its UTF-16 code units;
    - a JavaScript number that holds a line, a column or a length is a [Z];
    - an optional field ([regex?], [context?], ...) is an [option], with
      [None] for [undefined];
    - a call that may throw, or a promise that may reject, returns an
      [outcome];
    - what the provider inherits or imports and is not part of the file
      (regular expressions, [JSON], [URL], [checkContext], [getFiletypes])
      is a method of one of the two classes [JsRuntime] and [BaseProvider]. *)

From Stdlib Require Import String Ascii.
From Stdlib Require Import List ZArith NArith Bool Lia.
Import ListNotations.

Local Open Scope Z_scope.

(** ** JavaScript strings *)

Definition jsstring : Type := list N.

(** Literals of the development: the code units of an ASCII text. *)
Definition js (s : string) : jsstring :=
  map N_of_ascii (list_ascii_of_string s).

(** [s.length] *)
Definition len (s : jsstring) : Z := Z.of_nat (length s).

(** [a === b] on strings *)
Fixpoint streq (a b : jsstring) : bool :=
  match a, b with
  | [], [] => true
  | x :: a', y :: b' => N.eqb x y && streq a' b'
  | _, _ => false
  end.

(** [arr.includes(x)] on an array of strings *)
Definition includes (arr : list jsstring) (x : jsstring) : bool :=
  existsb (fun y => streq y x) arr.

(** Relative index of [String.prototype.slice]: a negative index counts from
    the end, and the result is clamped to [0 .. n]. *)
Definition relativeIndex (n i : Z) : Z :=
  if i <? 0 then Z.max (n + i) 0 else Z.min i n.

(** [s.slice(a, b)] *)
Definition slice (s : jsstring) (a b : Z) : jsstring :=
  let n := len s in
  let from := relativeIndex n a in
  let to := relativeIndex n b in
  firstn (Z.to_nat (Z.max (to - from) 0)) (skipn (Z.to_nat from) s).

(** [s.endsWith(p)] *)
Definition endsWith (s p : jsstring) : bool :=
  let start := len s - len p in
  if start <? 0 then false else streq (skipn (Z.to_nat start) s) p.

(** [s[i]]; out of range JavaScript gives [undefined], here the empty
    string: every use in the provider is guarded by a length test. *)
Definition at_ (s : jsstring) (i : Z) : jsstring :=
  if (0 <=? i) && (i <? len s) then [nth (Z.to_nat i) s 0%N] else [].

(** The code units ECMAScript calls WhiteSpace or LineTerminator: what
    [trim] strips and what the class [\s] matches. *)
Definition isWhiteSpace (c : N) : bool :=
  ((9 <=? c) && (c <=? 13) || (c =? 32) || (c =? 160) || (c =? 5760)
   || (8192 <=? c) && (c <=? 8202) || (c =? 8232) || (c =? 8233)
   || (c =? 8239) || (c =? 8287) || (c =? 12288) || (c =? 65279))%N.

Fixpoint trimStart (s : jsstring) : jsstring :=
  match s with
  | [] => []
  | c :: r => if isWhiteSpace c then trimStart r else s
  end.

Definition trimEnd (s : jsstring) : jsstring := rev (trimStart (rev s)).

(** [s.trim()] *)
Definition trim (s : jsstring) : jsstring := trimEnd (trimStart s).

(** [/\s$/.test(s)]: without the [m] flag [$] is the end of the input, so
    the test asks whether the last code unit is white space. *)
Definition testWhiteSpaceAtEnd (s : jsstring) : bool :=
  match rev s with
  | [] => false
  | c :: _ => isWhiteSpace c
  end.

(** Truthiness of an optional string and of an optional boolean. *)
Definition truthyStr (o : option jsstring) : bool :=
  match o with
  | Some (_ :: _) => true
  | _ => false
  end.

Definition truthyBool (o : option bool) : bool :=
  match o with
  | Some true => true
  | _ => false
  end.

Definition valueOr (o : option jsstring) : jsstring :=
  match o with
  | Some s => s
  | None => []
  end.

(** ** Results of calls that may throw or reject *)

Inductive Error : Type :=
| TypeError
| SyntaxError
| InvalidURL
| RequestError
| StatusError (statusCode : Z).

Inductive outcome (A : Type) : Type :=
| Resolved (a : A)
| Rejected (e : Error).

Arguments Resolved {A} a.
Arguments Rejected {A} e.

(** ** The platform *)

Record URL : Type := mkURL
  { href : jsstring; host : jsstring; port : jsstring; protocol : jsstring }.

Module SnippetContent.
Record t : Type := mk
  { content : jsstring;
    created_at : jsstring;
    id : jsstring;
    language : jsstring;
    name : jsstring;
    public : bool;
    updated_at : jsstring }.
End SnippetContent.

(** [HttpResponseItem] *)
Record HttpResponseItem : Type := mkResponseItem
  { snippets : list SnippetContent.t }.

(** The body of the POST of [createSnippet] before [JSON.stringify]. *)
Record NewSnippetRequest : Type := mkNewSnippetRequest
  { new_content : option jsstring;
    new_name : jsstring;
    new_public : bool;
    new_language : jsstring }.

(** Built-ins of the JavaScript runtime the provider calls.
    [exec re line] is the first match of [line.match(re)]: its index and
    its text [ms[0]], or [None] for [null]; the text is the part of [line]
    at the index. Matching is a function of the expression and the line:
    the expressions are not sticky, so no match depends on an earlier one. *)
Class JsRuntime : Type :=
  { RegExp : Type;
    exec : RegExp -> jsstring -> option (nat * jsstring);
    exec_sound : forall re line i m,
        exec re line = Some (i, m) ->
        firstn (length m) (skipn i line) = m /\ (i + length m <= length line)%nat;
    newURL : jsstring -> option URL;
    JSON_parse : jsstring -> option HttpResponseItem;
    JSON_stringify : NewSnippetRequest -> jsstring }.

(** ** Types of [./types] and of the editor *)

Inductive TriggerKind : Type :=
| SpaceBefore
| LineBegin
| WordBoundary
| InWord.

Module Position.
Record t : Type := create { line : Z; character : Z }.
End Position.

Module Range.
Record t : Type := mk { start : Position.t; end_ : Position.t }.
Definition create (startLine startCharacter endLine endCharacter : Z) : t :=
  mk (Position.create startLine startCharacter)
     (Position.create endLine endCharacter).
End Range.

(** The editor's document, as far as the provider queries it. *)
Module Document.
Record t : Type := mk
  { getline : Z -> jsstring;
    filetype : jsstring;
    isWord : jsstring -> bool }.
End Document.

Module Snippet.
(** Modelled from the spec: the [Snippet] interface of [./types], which is
    not among the sources; the fields are those the provider reads or
    writes, optional ones as the provider treats them. *)
Record t `{JsRuntime} : Type := mk
  { filepath : jsstring;
    lnum : Z;
    body : jsstring;
    prefix : jsstring;
    description : jsstring;
    triggerKind : TriggerKind;
    filetype : jsstring;
    regex : option RegExp;
    originRegex : option jsstring;
    autoTrigger : option bool;
    context : option jsstring;
    priority : option Z }.
Arguments mk {_} _ _ _ _ _ _ _ _ _ _ _ _.
End Snippet.

Module SnippetEdit.
(** Modelled from the spec: the [SnippetEdit] interface of [./types], with
    the fields [getTriggerSnippets] fills in. *)
Record t : Type := mk
  { range : Range.t;
    newText : jsstring;
    prefix : jsstring;
    description : jsstring;
    location : jsstring;
    priority : option Z;
    regex : option jsstring;
    context : option jsstring }.
End SnippetEdit.

(** What the provider inherits from [BaseProvider] (not among the sources).
    [checkContext] is asynchronous and evaluates an expression in the
    editor: it is a transition on the editor's state [World]. *)
Class BaseProvider : Type :=
  { World : Type;
    checkContext : jsstring -> World -> bool * World;
    getFiletypes : jsstring -> list jsstring }.

(** ** Trigger matching *)

Section Matching.

Context `{RT : JsRuntime} `{BP : BaseProvider}.

Definition getMatched (snippet : Snippet.t) (line : jsstring) : option jsstring :=
  match Snippet.regex snippet with
  | Some regex =>
      match exec regex line with
      | None => None
      | Some (_, ms0) => Some ms0
      end
  | None =>
      if negb (endsWith line (Snippet.prefix snippet)) then None
      else Some (Snippet.prefix snippet)
  end.

(** The callback of [filter] in [getTriggerSnippets]. *)
Definition triggerFilter (document : Document.t) (line : jsstring)
  (autoTrigger : option bool) (s : Snippet.t) : bool :=
  if truthyBool autoTrigger && negb (truthyBool (Snippet.autoTrigger s)) then false
  else
    match getMatched s line with
    | None => false
    | Some match_ =>
        let pre := slice line 0 (len line - len match_) in
        match Snippet.triggerKind s with
        | InWord => true
        | LineBegin => streq (trim pre) []
        | SpaceBefore => (len pre =? 0) || testWhiteSpaceAtEnd pre
        | WordBoundary =>
            (len pre =? 0) || negb (Document.isWord document (at_ pre (len pre - 1)))
        end
    end.

(** The comparator of [sort] in [getTriggerSnippets]. *)
Definition compareContext (a b : Snippet.t) : Z :=
  if truthyStr (Snippet.context a) && negb (truthyStr (Snippet.context b)) then -1
  else if truthyStr (Snippet.context b) && negb (truthyStr (Snippet.context a)) then 1
  else 0.

(** [Array.prototype.sort] is stable (ECMAScript 2019): with a comparator
    that is a weak order the result is the one of a stable insertion sort. *)
Fixpoint insertSorted {A : Type} (cmp : A -> A -> Z) (x : A) (l : list A) : list A :=
  match l with
  | [] => [x]
  | y :: l' => if cmp x y <=? 0 then x :: l else y :: insertSorted cmp x l'
  end.

Fixpoint sort {A : Type} (cmp : A -> A -> Z) (l : list A) : list A :=
  match l with
  | [] => []
  | x :: l' => insertSorted cmp x (sort cmp l')
  end.

(** The column at which the replaced text starts: the two branches on
    [s.regex == null]. [line.match(s.regex)[0]] throws when there is no
    match. *)
Definition startCharacter (s : Snippet.t) (line : jsstring)
  (position : Position.t) : outcome Z :=
  match Snippet.regex s with
  | None => Resolved (Position.character position - len (Snippet.prefix s))
  | Some regex =>
      match exec regex line with
      | None => Rejected TypeError
      | Some (_, ms0) => Resolved (Position.character position - len ms0)
      end
  end.

(** The object pushed on [edits]. *)
Definition makeEdit (s : Snippet.t) (position : Position.t) (character : Z)
  : SnippetEdit.t :=
  SnippetEdit.mk
    (Range.create (Position.line position) character
                  (Position.line position) (Position.character position))
    (Snippet.body s)
    (Snippet.prefix s)
    (Snippet.description s)
    (Snippet.filepath s)
    (Snippet.priority s)
    (Snippet.originRegex s)
    (Snippet.context s).

(** The [for] loop of [getTriggerSnippets], with its two variables [edits]
    and [hasContext]; [continue] goes on with the rest, [break] returns. *)
Fixpoint walk (line : jsstring) (position : Position.t)
  (snippets : list Snippet.t) (edits : list SnippetEdit.t) (hasContext : bool)
  (w : World) : outcome (list SnippetEdit.t) * World :=
  match snippets with
  | [] => (Resolved edits, w)
  | s :: rest =>
      if truthyStr (Snippet.context s) then
        let '(valid, w1) := checkContext (valueOr (Snippet.context s)) w in
        if negb valid then walk line position rest edits hasContext w1
        else
          match startCharacter s line position with
          | Rejected e => (Rejected e, w1)
          | Resolved character =>
              walk line position rest (edits ++ [makeEdit s position character]) true w1
          end
      else if hasContext then (Resolved edits, w)
      else
        match startCharacter s line position with
        | Rejected e => (Rejected e, w)
        | Resolved character =>
            walk line position rest (edits ++ [makeEdit s position character])
                 hasContext w
        end
  end.

(** [getTriggerSnippets], with [this.getSnippets] as a parameter. *)
Definition getTriggerSnippetsFrom
  (getSnippets : jsstring -> outcome (list Snippet.t))
  (document : Document.t) (position : Position.t) (autoTrigger : option bool)
  (w : World) : outcome (list SnippetEdit.t) * World :=
  if truthyBool autoTrigger then (Resolved [], w)
  else
    let line := Document.getline document (Position.line position) in
    if len line =? 0 then (Resolved [], w)
    else
      match getSnippets (Document.filetype document) with
      | Rejected e => (Rejected e, w)
      | Resolved all =>
          let snippets := filter (triggerFilter document line autoTrigger) all in
          let snippets := sort compareContext snippets in
          walk line position snippets [] false w
      end.

End Matching.

(** ** The remote store *)

Inductive Method : Type :=
| GET
| POST.

(** A header value is a string or a number. *)
Inductive HeaderValue : Type :=
| HString (s : jsstring)
| HNumber (n : Z).

Definition Headers : Type := list (jsstring * HeaderValue).

(** [{ ...headers, key: value }] *)
Fixpoint setHeader (headers : Headers) (key : jsstring) (value : HeaderValue) : Headers :=
  match headers with
  | [] => [(key, value)]
  | (k, v) :: rest =>
      if streq k key then (k, value) :: rest else (k, v) :: setHeader rest key value
  end.

Record HttpConfig : Type := mkHttpConfig
  { cfg_headers : option Headers;
    cfg_host : jsstring;
    cfg_port : jsstring;
    cfg_protocol : jsstring;
    cfg_path : option jsstring;
    cfg_method : Method;
    cfg_url : URL }.

(** What the server does with one request: the request fails, or a response
    with a status code arrives in chunks. *)
Inductive Response : Type :=
| ResponseError
| ResponseEnd (statusCode : Z) (chunks : list jsstring).

(** What the provider does to the outside. Logging is left out. *)
Inductive Event : Type :=
| HttpRequest (url : jsstring) (method : Method) (headers : Headers)
    (body : option jsstring)
| RequestInput (title : jsstring)
| ShowMessage (message : jsstring).

Definition isPost (e : Event) : bool :=
  match e with
  | HttpRequest _ POST _ _ => true
  | _ => false
  end.

Record SniphubConfig : Type := mkSniphubConfig
  { apiUrl : jsstring; apiToken : option jsstring }.

(** The fields of the class. Neither [sniphubItems] nor [baseHttpConfig]
    has an initializer: both are [undefined] in a new provider. *)
Record SniphubProvider : Type := mkSniphubProvider
  { config : SniphubConfig;
    sniphubItems : option (list SnippetContent.t);
    baseHttpConfig : option HttpConfig }.

(** [new SniphubProvider(channel, config)] *)
Definition newProvider (config : SniphubConfig) : SniphubProvider :=
  mkSniphubProvider config None None.

Section Provider.

Context `{RT : JsRuntime} `{BP : BaseProvider}.

(** [promisifyHttpRequest]: the request sent, and the promise's result for
    the given behaviour of the server. *)
Definition promisifyHttpRequest {T : Type} (config : HttpConfig)
  (onEnd : list jsstring -> outcome T) (body : option jsstring)
  (response : Response) : list Event * outcome T :=
  let headers0 := match cfg_headers config with Some h => h | None => [] end in
  let prepared :=
    match cfg_method config, body with
    | POST, None => Rejected TypeError
    | POST, Some b =>
        if negb (len b =? 0) then
          Resolved
            (setHeader
               (setHeader
                  (setHeader headers0 (js "Accept") (HString (js "application/json")))
                  (js "Content-Type") (HString (js "application/json")))
               (js "Content-Length") (HNumber (len b)))
        else Resolved headers0
    | GET, _ => Resolved headers0
    end in
  match prepared with
  | Rejected e => ([], Rejected e)
  | Resolved headers =>
      let path := match cfg_path config with Some p => p | None => js "undefined" end in
      let request :=
        HttpRequest (href (cfg_url config) ++ path) (cfg_method config) headers
          (if truthyStr body then body else None) in
      match response with
      | ResponseError => ([request], Rejected RequestError)
      | ResponseEnd statusCode chunks =>
          if (statusCode <? 200) || (statusCode >=? 300)
          then ([request], Rejected (StatusError statusCode))
          else ([request], onEnd chunks)
      end
  end.

Definition withAuthorization (this : SniphubProvider) (options : HttpConfig) : HttpConfig :=
  if truthyStr (apiToken (config this)) then
    mkHttpConfig
      (Some (setHeader (match cfg_headers options with Some h => h | None => [] end)
               (js "Authorization")
               (HString (js "Bearer " ++ valueOr (apiToken (config this))))))
      (cfg_host options) (cfg_port options) (cfg_protocol options)
      (cfg_path options) (cfg_method options) (cfg_url options)
  else options.

Definition loadAllSnippets (this : SniphubProvider) (response : Response)
  : list Event * outcome HttpResponseItem :=
  match baseHttpConfig this with
  | None => ([], Rejected TypeError)
  | Some base =>
      let options :=
        mkHttpConfig (cfg_headers base) (cfg_host base) (cfg_port base)
          (cfg_protocol base) (Some (js "/snippets")) (cfg_method base) (cfg_url base) in
      let options := withAuthorization this options in
      let onEnd := fun body : list jsstring =>
        match JSON_parse (concat body) with
        | Some parsed => Resolved parsed
        | None => Rejected SyntaxError
        end in
      promisifyHttpRequest options onEnd None response
  end.

Definition init (this : SniphubProvider) (response : Response)
  : list Event * SniphubProvider * outcome unit :=
  match newURL (apiUrl (config this)) with
  | None => ([], this, Rejected InvalidURL)
  | Some url =>
      let this1 :=
        mkSniphubProvider (config this) (sniphubItems this)
          (Some (mkHttpConfig None (host url) (port url) (protocol url) None GET url)) in
      match loadAllSnippets this1 response with
      | (events, Rejected e) => (events, this1, Rejected e)
      | (events, Resolved snippetResponse) =>
          (events,
           mkSniphubProvider (config this1) (Some (snippets snippetResponse))
             (baseHttpConfig this1),
           Resolved tt)
      end
  end.

(** The callback of [map] in [mapItems], for the current [counter]. *)
Definition toSnippet (counter : Z) (item : SnippetContent.t) : Snippet.t :=
  Snippet.mk
    (SnippetContent.id item)
    counter
    (SnippetContent.content item)
    (SnippetContent.name item)
    (SnippetContent.name item)
    WordBoundary
    (SnippetContent.language item)
    None None None None None.

Fixpoint mapFrom (counter : Z) (items : list SnippetContent.t) : list Snippet.t :=
  match items with
  | [] => []
  | item :: rest => toSnippet counter item :: mapFrom (counter + 1) rest
  end.

(** [mapItems]: [this.sniphubItems.map] throws on [undefined]. *)
Definition mapItems (this : SniphubProvider) : outcome (list Snippet.t) :=
  match sniphubItems this with
  | None => Rejected TypeError
  | Some items => Resolved (mapFrom 0 items)
  end.

Definition getSnippets (this : SniphubProvider) (filetype : jsstring)
  : outcome (list Snippet.t) :=
  match mapItems this with
  | Rejected e => Rejected e
  | Resolved all =>
      Resolved
        (filter (fun snippet => includes (getFiletypes filetype) (Snippet.filetype snippet))
           all)
  end.

(** [getSnippetFiles]: [getFiletypes] returns a new array, on which the
    wildcard is pushed. *)
Definition getSnippetFiles (this : SniphubProvider) (filetype : jsstring)
  : outcome (list jsstring) :=
  let filetypes := getFiletypes filetype ++ [js "all"] in
  match sniphubItems this with
  | None => Rejected TypeError
  | Some items =>
      Resolved
        (map SnippetContent.id
           (filter (fun snippet => includes filetypes (SnippetContent.language snippet))
              items))
  end.

Definition getTriggerSnippets (this : SniphubProvider) (document : Document.t)
  (position : Position.t) (autoTrigger : option bool) (w : World)
  : outcome (list SnippetEdit.t) * World :=
  getTriggerSnippetsFrom (getSnippets this) document position autoTrigger w.

(** How a call of [createSnippet] ends. In the last case the POST resolved
    with the chunks of the response, which the method pushes on
    [sniphubItems] as they are; the provider returned with [Posted] is the
    one before that push. *)
Inductive Creation : Type :=
| NoName
| AlreadyExists
| Failed (e : Error)
| Posted (newSnippet : list jsstring).

Definition alreadyExistsMessage (name : jsstring) : jsstring :=
  js "Snippet with name " ++ name ++ js " for this filetype already exists".

(** [createSnippet(text)], for the document [doc] of the workspace, the
    answer [name] to the prompt and the server's behaviour on the GET of
    [init] and on the POST. *)
Definition createSnippet (this : SniphubProvider) (text : option jsstring)
  (doc : Document.t) (name : option jsstring)
  (getResponse postResponse : Response)
  : list Event * SniphubProvider * Creation :=
  let prompt := RequestInput (js "Snippet Name") in
  if negb (truthyStr name) then ([prompt], this, NoName)
  else
    let name := valueOr name in
    match init this getResponse with
    | (events, this1, Rejected e) => (prompt :: events, this1, Failed e)
    | (events, this1, Resolved _) =>
        match mapItems this1 with
        | Rejected e => (prompt :: events, this1, Failed e)
        | Resolved items =>
            if existsb
                 (fun item => streq (Snippet.prefix item) name
                              && streq (Snippet.filetype item) (Document.filetype doc))
                 items
            then (prompt :: events ++ [ShowMessage (alreadyExistsMessage name)],
                  this1, AlreadyExists)
            else
              match baseHttpConfig this1 with
              | None => (prompt :: events, this1, Failed TypeError)
              | Some base =>
                  let config :=
                    mkHttpConfig (cfg_headers base) (cfg_host base) (cfg_port base)
                      (cfg_protocol base) (Some (js "/snippets")) POST (cfg_url base) in
                  let config := withAuthorization this1 config in
                  let newSnippetRequest :=
                    mkNewSnippetRequest text name true (Document.filetype doc) in
                  match promisifyHttpRequest config (fun body => Resolved body)
                          (Some (JSON_stringify newSnippetRequest)) postResponse with
                  | (posted, Rejected e) => (prompt :: events ++ posted, this1, Failed e)
                  | (posted, Resolved newSnippet) =>
                      (prompt :: events ++ posted, this1, Posted newSnippet)
                  end
              end
        end
    end.

End Provider.

(** ** A runtime and a base provider to run the code on

    Regular expressions are literal texts, found by search from the left;
    [JSON.parse] reads the one response the examples use; a file type has
    no alias; a context holds when it is the text [1]. *)

Fixpoint startsWith (s p : jsstring) : bool :=
  match p, s with
  | [], _ => true
  | x :: p', y :: s' => N.eqb x y && startsWith s' p'
  | _ :: _, [] => false
  end.

Fixpoint indexOfFrom (i : nat) (s p : jsstring) : option nat :=
  if startsWith s p then Some i
  else
    match s with
    | [] => None
    | _ :: s' => indexOfFrom (S i) s' p
    end.

Definition literalExec (re line : jsstring) : option (nat * jsstring) :=
  match indexOfFrom 0 line re with
  | Some i => Some (i, re)
  | None => None
  end.

Definition goCatalog : HttpResponseItem :=
  mkResponseItem
    [SnippetContent.mk (js "func $1() {}") (js "2024-01-01") (js "17") (js "go")
       (js "fn") true (js "2024-01-01")].

Definition goCatalogText : jsstring := js "{snippets:[fn]}".

Definition exampleParse (text : jsstring) : option HttpResponseItem :=
  if streq text goCatalogText then Some goCatalog else None.

Definition exampleURL (text : jsstring) : option URL :=
  match text with
  | [] => None
  | _ => Some (mkURL text (js "localhost") (js "4000") (js "http:"))
  end.

Definition exampleStringify (r : NewSnippetRequest) : jsstring :=
  js "{name:" ++ new_name r ++ js ",language:" ++ new_language r ++ js "}".

(** ** Facts about strings *)

Lemma len_app (a b : jsstring) : len (a ++ b) = len a + len b.
Proof. unfold len. rewrite length_app. lia. Qed.

Lemma len_nonneg (s : jsstring) : 0 <= len s.
Proof. unfold len. lia. Qed.


Lemma streq_refl (a : jsstring) : streq a a = true.
Proof. induction a as [|x a IH]; simpl; [reflexivity|]. now rewrite N.eqb_refl. Qed.

Lemma streq_eq (a b : jsstring) : streq a b = true <-> a = b.
Proof.
  split.
  - revert b. induction a as [|x a IH]; intros [|y b] H; simpl in H;
      try reflexivity; try discriminate.
    apply andb_true_iff in H. destruct H as [Hxy Hab].
    apply N.eqb_eq in Hxy. apply IH in Hab. now subst.
  - intros ->. apply streq_refl.
Qed.

Lemma streq_neq (a b : jsstring) : streq a b = false <-> a <> b.
Proof.
  split.
  - intros H Heq. apply streq_eq in Heq. congruence.
  - intro H. destruct (streq a b) eqn:E; [|reflexivity].
    apply streq_eq in E. contradiction.
Qed.

Lemma includes_In (arr : list jsstring) (x : jsstring) :
  includes arr x = true <-> In x arr.
Proof.
  unfold includes. rewrite existsb_exists. split.
  - intros [y [Hin Heq]]. apply streq_eq in Heq. now subst.
  - intro Hin. exists x. split; [assumption | apply streq_refl].
Qed.

Lemma endsWith_suffix (s p : jsstring) :
  endsWith s p = true <-> exists pre, s = pre ++ p.
Proof.
  unfold endsWith. split.
  - destruct (len s - len p <? 0) eqn:E; [discriminate|].
    intro H. apply streq_eq in H.
    exists (firstn (Z.to_nat (len s - len p)) s).
    rewrite <- H at 2. symmetry. apply firstn_skipn.
  - intros [pre ->]. rewrite len_app.
    replace (len pre + len p - len p) with (len pre) by lia.
    pose proof (len_nonneg pre) as Hpre.
    destruct (len pre <? 0) eqn:E; [apply Z.ltb_lt in E; lia|].
    unfold len. rewrite Nat2Z.id, skipn_app, skipn_all, Nat.sub_diag. simpl.
    apply streq_refl.
Qed.


(** Cutting [k] code units off the end of a line, [0 <= k <= length]. *)
Lemma slice_firstn (s : jsstring) (k : Z) :
  0 <= k <= len s -> slice s 0 (len s - k) = firstn (Z.to_nat (len s - k)) s.
Proof.
  intro Hk. unfold slice, relativeIndex. simpl (0 <? 0).
  destruct (len s - k <? 0) eqn:E; [apply Z.ltb_lt in E; lia|].
  rewrite Z.min_l by lia. rewrite Z.min_l by lia.
  rewrite Z.sub_0_r, Z.max_l by lia. reflexivity.
Qed.

Lemma trimStart_nil (s : jsstring) :
  trimStart s = [] <-> forallb isWhiteSpace s = true.
Proof.
  induction s as [|c s IH]; simpl.
  - split; reflexivity.
  - destruct (isWhiteSpace c); simpl; [exact IH|].
    split; discriminate.
Qed.

Lemma trim_nil (s : jsstring) :
  trim s = [] <-> forallb isWhiteSpace s = true.
Proof.
  unfold trim, trimEnd. split.
  - intro H. apply (f_equal (@rev N)) in H. rewrite rev_involutive in H. simpl in H.
    apply trimStart_nil in H.
    destruct (trimStart s) as [|c t] eqn:E.
    + now apply trimStart_nil.
    + exfalso. rewrite forallb_forall in H.
      assert (Hc : isWhiteSpace c = true).
      { apply H. rewrite <- in_rev. now left. }
      destruct s as [|d s']; simpl in E; [discriminate|].
      destruct (isWhiteSpace d) eqn:Ed.
      * clear H Ed. revert c t E Hc.
        induction s' as [|x s' IH]; intros c t E Hc; simpl in E; [discriminate|].
        destruct (isWhiteSpace x) eqn:Ex; [eauto|].
        injection E as <- <-. congruence.
      * injection E as <- <-. congruence.
  - intro H. apply trimStart_nil in H. rewrite H. reflexivity.
Qed.




Lemma startsWith_firstn (s p : jsstring) :
  startsWith s p = true -> firstn (length p) s = p /\ (length p <= length s)%nat.
Proof.
  revert s. induction p as [|x p IH]; intros s H; simpl.
  - split; [reflexivity | lia].
  - destruct s as [|y s]; simpl in H; [discriminate|].
    apply andb_true_iff in H. destruct H as [Hxy H].
    apply N.eqb_eq in Hxy. subst y. destruct (IH s H) as [Heq Hle].
    simpl. rewrite Heq. split; [reflexivity | lia].
Qed.

Lemma indexOfFrom_sound (s p : jsstring) :
  forall i j, indexOfFrom i s p = Some j ->
    exists k, j = (i + k)%nat /\ firstn (length p) (skipn k s) = p
              /\ (k + length p <= length s)%nat.
Proof.
  induction s as [|c s IH]; intros i j H; cbn [indexOfFrom] in H.
  - destruct (startsWith [] p) eqn:E; [|discriminate].
    injection H as <-. exists 0%nat. apply startsWith_firstn in E.
    simpl. destruct E as [E1 E2]. repeat split; [lia | exact E1 | exact E2].
  - destruct (startsWith (c :: s) p) eqn:E.
    + injection H as <-. exists 0%nat. apply startsWith_firstn in E.
      destruct E as [E1 E2]. repeat split; [lia | exact E1 | exact E2].
    + destruct (IH _ _ H) as [k [-> [Hk1 Hk2]]]. exists (S k).
      simpl. repeat split; [lia | exact Hk1 | lia].
Qed.

Lemma literalExec_sound (re line : jsstring) (i : nat) (m : jsstring) :
  literalExec re line = Some (i, m) ->
  firstn (length m) (skipn i line) = m /\ (i + length m <= length line)%nat.
Proof.
  unfold literalExec. destruct (indexOfFrom 0 line re) as [j|] eqn:E; [|discriminate].
  intro H. injection H as <- <-.
  destruct (indexOfFrom_sound _ _ _ _ E) as [k [-> [H1 H2]]]. simpl. now split.
Qed.

Definition exampleRuntime : JsRuntime :=
  Build_JsRuntime jsstring literalExec literalExec_sound
    exampleURL exampleParse exampleStringify.

Definition exampleProvider : BaseProvider :=
  Build_BaseProvider unit
    (fun context w => (streq context (js "1"), w))
    (fun filetype => [filetype]).

(** ** Facts about the matcher *)

Section MatchingFacts.

Context `{RT : JsRuntime} `{BP : BaseProvider}.

Definition hasContextSnippet (s : Snippet.t) : bool := truthyStr (Snippet.context s).

Definition hasContextEdit (e : SnippetEdit.t) : bool := truthyStr (SnippetEdit.context e).

(** The edits already collected are kept in front of those added later. *)
Definition prepend (edits : list SnippetEdit.t)
  (r : outcome (list SnippetEdit.t) * World) : outcome (list SnippetEdit.t) * World :=
  match r with
  | (Resolved later, w) => (Resolved (edits ++ later), w)
  | (Rejected e, w) => (Rejected e, w)
  end.

Lemma prepend_prepend (a b : list SnippetEdit.t) r :
  prepend a (prepend b r) = prepend (a ++ b) r.
Proof. destruct r as [[later|e] w]; simpl; [now rewrite app_assoc | reflexivity]. Qed.

Lemma walk_prepend (line : jsstring) (position : Position.t) (snippets : list Snippet.t) :
  forall edits hasContext w,
    walk line position snippets edits hasContext w
    = prepend edits (walk line position snippets [] hasContext w).
Proof.
  induction snippets as [|s rest IH]; intros edits hasContext w; simpl.
  - now rewrite app_nil_r.
  - destruct (truthyStr (Snippet.context s)).
    + destruct (checkContext (valueOr (Snippet.context s)) w) as [valid w1].
      destruct valid; simpl.
      * destruct (startCharacter s line position) as [character|e]; [|reflexivity].
        rewrite (IH (edits ++ _)), (IH [_]), prepend_prepend. reflexivity.
      * apply IH.
    + destruct hasContext; simpl; [now rewrite app_nil_r|].
      destruct (startCharacter s line position) as [character|e]; [|reflexivity].
      rewrite (IH (edits ++ _)), (IH [_]), prepend_prepend. reflexivity.
Qed.

Lemma getMatched_startCharacter (s : Snippet.t) (line m : jsstring) (position : Position.t) :
  getMatched s line = Some m ->
  startCharacter s line position = Resolved (Position.character position - len m).
Proof.
  unfold getMatched, startCharacter. destruct (Snippet.regex s) as [regex|].
  - destruct (exec regex line) as [[i ms0]|]; [|discriminate]. now intros [= <-].
  - destruct (endsWith line (Snippet.prefix s)); simpl; [|discriminate]. now intros [= <-].
Qed.

(** Every edit the loop returns was made from one of the snippets, at the
    column [startCharacter] gives. *)
Lemma walk_In (line : jsstring) (position : Position.t) (snippets : list Snippet.t) :
  forall hasContext w result w' e,
    walk line position snippets [] hasContext w = (Resolved result, w') ->
    In e result ->
    exists s character,
      In s snippets /\ startCharacter s line position = Resolved character
      /\ e = makeEdit s position character.
Proof.
  induction snippets as [|s rest IH]; intros hasContext w result w' e Hwalk Hin;
    simpl in Hwalk.
  - injection Hwalk as <- <-. contradiction.
  - assert (Hstep : forall hc w1 character,
               startCharacter s line position = Resolved character ->
               walk line position rest ([] ++ [makeEdit s position character]) hc w1
               = (Resolved result, w') ->
               exists s0 character0,
                 In s0 (s :: rest)
                 /\ startCharacter s0 line position = Resolved character0
                 /\ e = makeEdit s0 position character0).
    { intros hc w1 character Hstart Hrest. rewrite walk_prepend in Hrest.
      destruct (walk line position rest [] hc w1) as [[later|err] w2] eqn:E;
        simpl in Hrest; [|discriminate].
      injection Hrest as <- <-. destruct Hin as [<-|Hin].
      - exists s, character. repeat split; [now left | assumption].
      - destruct (IH _ _ _ _ _ E Hin) as [s0 [c0 [H1 [H2 H3]]]].
        exists s0, c0. repeat split; [now right | assumption | assumption]. }
    destruct (truthyStr (Snippet.context s)).
    + destruct (checkContext (valueOr (Snippet.context s)) w) as [valid w1].
      destruct valid; simpl in Hwalk.
      * destruct (startCharacter s line position) as [character|err] eqn:Hs;
          [|discriminate]. eapply Hstep; eauto.
      * destruct (IH _ _ _ _ _ Hwalk Hin) as [s0 [c0 [H1 [H2 H3]]]].
        exists s0, c0. repeat split; [now right | assumption | assumption].
    + destruct hasContext.
      * injection Hwalk as <- <-. contradiction.
      * destruct (startCharacter s line position) as [character|err] eqn:Hs;
          [|discriminate]. eapply Hstep; eauto.
Qed.

(** Once [hasContext] is set, the loop adds edits of snippets with a
    context only. *)
Lemma walk_after_context (line : jsstring) (position : Position.t)
  (snippets : list Snippet.t) :
  forall w result w',
    walk line position snippets [] true w = (Resolved result, w') ->
    Forall (fun e => hasContextEdit e = true) result.
Proof.
  induction snippets as [|s rest IH]; intros w result w' Hwalk; simpl in Hwalk.
  - injection Hwalk as <- <-. constructor.
  - destruct (truthyStr (Snippet.context s)) eqn:Hctx.
    + destruct (checkContext (valueOr (Snippet.context s)) w) as [valid w1].
      destruct valid; simpl in Hwalk; [|eauto].
      destruct (startCharacter s line position) as [character|err]; [|discriminate].
      rewrite walk_prepend in Hwalk.
      destruct (walk line position rest [] true w1) as [[later|err] w2] eqn:E;
        simpl in Hwalk; [|discriminate].
      injection Hwalk as <- <-. constructor; [exact Hctx | eauto].
    + injection Hwalk as <- <-. constructor.
Qed.


End MatchingFacts.

(** ** Ordering of the candidates *)

Section Ordering.

Context `{RT : JsRuntime}.

Lemma insertSorted_In {A : Type} (cmp : A -> A -> Z) (x a : A) (l : list A) :
  In x (insertSorted cmp a l) <-> x = a \/ In x l.
Proof.
  induction l as [|y l IH]; simpl.
  - intuition congruence.
  - destruct (cmp a y <=? 0); simpl; [intuition congruence|].
    rewrite IH. intuition congruence.
Qed.

Lemma sort_In {A : Type} (cmp : A -> A -> Z) (x : A) (l : list A) :
  In x (sort cmp l) <-> In x l.
Proof.
  induction l as [|a l IH]; simpl; [reflexivity|].
  rewrite insertSorted_In, IH. intuition congruence.
Qed.

(** A snippet with a context goes in front of everything. *)
Lemma insert_with_context (x : Snippet.t) (l : list Snippet.t) :
  hasContextSnippet x = true -> insertSorted compareContext x l = x :: l.
Proof.
  intro Hx. destruct l as [|y l]; simpl; [reflexivity|].
  unfold compareContext. unfold hasContextSnippet in Hx. rewrite Hx. simpl.
  destruct (truthyStr (Snippet.context y)); reflexivity.
Qed.

(** A snippet without one goes behind those with a context and in front of
    the others. *)
Lemma insert_without_context (x : Snippet.t) (withContext without : list Snippet.t) :
  hasContextSnippet x = false ->
  Forall (fun s => hasContextSnippet s = true) withContext ->
  Forall (fun s => hasContextSnippet s = false) without ->
  insertSorted compareContext x (withContext ++ without) = withContext ++ x :: without.
Proof.
  intros Hx Hwith Hwithout. unfold hasContextSnippet in Hx.
  induction Hwith as [|y l Hy Hl IH]; simpl.
  - destruct Hwithout as [|z without Hz Hrest]; simpl; [reflexivity|].
    unfold compareContext, hasContextSnippet in *. rewrite Hx, Hz. reflexivity.
  - unfold compareContext at 1. unfold hasContextSnippet in Hy. rewrite Hx, Hy. simpl.
    now rewrite IH.
Qed.

Lemma sort_by_context (snippets : list Snippet.t) :
  sort compareContext snippets
  = filter hasContextSnippet snippets
    ++ filter (fun s => negb (hasContextSnippet s)) snippets.
Proof.
  induction snippets as [|x l IH]; simpl; [reflexivity|].
  rewrite IH. destruct (hasContextSnippet x) eqn:Hx; simpl.
  - now apply insert_with_context.
  - apply insert_without_context; [assumption | |];
      apply Forall_forall; intros s Hs; apply filter_In in Hs; destruct Hs as [_ Hs].
    + exact Hs.
    + now apply negb_true_iff.
Qed.

(** C6. The ordering step of [getTriggerSnippets] sorts by context presence
    only and is stable: the sorted list is the snippets with a context, in
    their catalog order, followed by the snippets without one, in their
    catalog order; so every snippet with a context precedes every snippet
    without. For A (no context), B (context), C (no context) in catalog
    order the sorted order is B, A, C. *)
Theorem context_sort_is_stable :
  (forall snippets : list Snippet.t,
      exists withContext without,
        sort compareContext snippets = withContext ++ without
        /\ withContext = filter hasContextSnippet snippets
        /\ without = filter (fun s => negb (hasContextSnippet s)) snippets
        /\ Forall (fun s => hasContextSnippet s = true) withContext
        /\ Forall (fun s => hasContextSnippet s = false) without)
  /\ (forall A B C : Snippet.t,
         hasContextSnippet A = false ->
         hasContextSnippet B = true ->
         hasContextSnippet C = false ->
         sort compareContext [A; B; C] = [B; A; C]).
Proof.
  split.
  - intro snippets. do 2 eexists. split; [apply sort_by_context|].
    repeat split; apply Forall_forall; intros s Hs; apply filter_In in Hs;
      destruct Hs as [_ Hs]; [exact Hs | now apply negb_true_iff].
  - intros A B C HA HB HC. rewrite sort_by_context. simpl.
    rewrite HA, HB, HC. reflexivity.
Qed.

End Ordering.

(** Three snippets for the examples: a plain one, one whose context holds
    in [exampleProvider] and one whose context does not. *)
Definition plainSnippet (name : jsstring) : @Snippet.t exampleRuntime :=
  Snippet.mk (js "7") 0 (js "body") name name WordBoundary (js "go")
    None None None None None.

Definition contextSnippet (name context : jsstring) : @Snippet.t exampleRuntime :=
  Snippet.mk (js "8") 0 (js "body") name name WordBoundary (js "go")
    None None None (Some context) None.

Lemma context_sort_is_stable_witness :
  sort compareContext
    [plainSnippet (js "A"); contextSnippet (js "B") (js "1"); plainSnippet (js "C")]
  = [contextSnippet (js "B") (js "1"); plainSnippet (js "A"); plainSnippet (js "C")].
Proof.
  apply (proj2 (@context_sort_is_stable exampleRuntime)); reflexivity.
Defined.

(** ** The walk over the sorted candidates *)

Section Walk.

Context `{RT : JsRuntime} `{BP : BaseProvider}.

Lemma makeEdit_context (s : Snippet.t) (position : Position.t) (character : Z) :
  hasContextEdit (makeEdit s position character) = hasContextSnippet s.
Proof. reflexivity. Qed.

(** C2. In the walk, a candidate with a context whose check gives false is
    skipped and the walk goes on with the candidates after it, in the same
    state of the loop; when the check gives true the candidate's edit is
    added, and every edit added after it carries a context: no later
    candidate without a context gets an edit, whatever it matched. *)
Theorem walk_context_gate :
  forall (line : jsstring) (position : Position.t) (s : Snippet.t)
         (rest : list Snippet.t) (edits : list SnippetEdit.t) (hasContext : bool)
         (w : World),
    hasContextSnippet s = true ->
    let valid := fst (checkContext (valueOr (Snippet.context s)) w) in
    let w1 := snd (checkContext (valueOr (Snippet.context s)) w) in
    (valid = false ->
     walk line position (s :: rest) edits hasContext w
     = walk line position rest edits hasContext w1)
    /\ (valid = true ->
        forall result w',
          walk line position (s :: rest) edits hasContext w = (Resolved result, w') ->
          exists character later,
            startCharacter s line position = Resolved character
            /\ result = edits ++ makeEdit s position character :: later
            /\ walk line position rest [] true w1 = (Resolved later, w')
            /\ Forall (fun e => hasContextEdit e = true) later
            /\ forall t c, In t rest -> hasContextSnippet t = false ->
                           ~ In (makeEdit t position c) later).
Proof.
  intros line position s rest edits hasContext w Hctx valid w1.
  unfold hasContextSnippet in Hctx. subst valid w1. simpl walk. rewrite Hctx.
  destruct (checkContext (valueOr (Snippet.context s)) w) as [valid w1]. simpl.
  split; intro Hvalid; subst valid; simpl; [reflexivity|].
  intros result w' Hwalk.
  destruct (startCharacter s line position) as [character|err]; [|discriminate].
  rewrite walk_prepend in Hwalk.
  destruct (walk line position rest [] true w1) as [[later|err] w2] eqn:E;
    simpl in Hwalk; [|discriminate].
  injection Hwalk as <- <-. exists character, later.
  pose proof (walk_after_context _ _ _ _ _ _ E) as Hlater.
  repeat split.
  - now rewrite <- app_assoc.
  - exact Hlater.
  - intros t c _ Ht Hin. rewrite Forall_forall in Hlater.
    apply Hlater in Hin. rewrite makeEdit_context in Hin. congruence.
Qed.

(** On a list sorted by context presence the result is made either of
    candidates with a context only or of candidates without one only. *)
Lemma walk_sorted_exclusive (line : jsstring) (position : Position.t)
  (withContext without : list Snippet.t) :
  Forall (fun s => hasContextSnippet s = true) withContext ->
  Forall (fun s => hasContextSnippet s = false) without ->
  forall w result w',
    walk line position (withContext ++ without) [] false w = (Resolved result, w') ->
    Forall (fun e => hasContextEdit e = true) result
    \/ Forall (fun e => hasContextEdit e = false) result.
Proof.
  intros Hwith Hwithout.
  induction Hwith as [|s l Hs Hl IH]; intros w result w' Hwalk.
  - right. simpl in Hwalk. apply Forall_forall. intros e He.
    destruct (walk_In _ _ _ _ _ _ _ _ Hwalk He) as [t [c [Ht [_ ->]]]].
    rewrite makeEdit_context. rewrite Forall_forall in Hwithout. now apply Hwithout.
  - simpl in Hwalk. unfold hasContextSnippet in Hs. rewrite Hs in Hwalk.
    destruct (checkContext (valueOr (Snippet.context s)) w) as [valid w1].
    destruct valid; simpl in Hwalk; [|eauto].
    destruct (startCharacter s line position) as [character|err]; [|discriminate].
    rewrite walk_prepend in Hwalk.
    destruct (walk line position (l ++ without) [] true w1) as [[later|err] w2] eqn:E;
      simpl in Hwalk; [|discriminate].
    injection Hwalk as <- <-. left. constructor; [exact Hs|].
    eapply walk_after_context. exact E.
Qed.

(** So for [getTriggerSnippets]: the edits returned all carry a context or
    none does. *)
Lemma result_exclusive (getSnippets : jsstring -> outcome (list Snippet.t))
  (document : Document.t) (position : Position.t) (autoTrigger : option bool)
  (w w' : World) (edits : list SnippetEdit.t) :
  getTriggerSnippetsFrom getSnippets document position autoTrigger w = (Resolved edits, w') ->
  Forall (fun e => hasContextEdit e = true) edits
  \/ Forall (fun e => hasContextEdit e = false) edits.
Proof.
  unfold getTriggerSnippetsFrom. intro Hrun.
  destruct (truthyBool autoTrigger).
  { injection Hrun as <- <-. now left. }
  destruct (len (Document.getline document (Position.line position)) =? 0).
  { injection Hrun as <- <-. now left. }
  destruct (getSnippets (Document.filetype document)) as [all|err]; [|discriminate].
  rewrite sort_by_context in Hrun.
  eapply walk_sorted_exclusive; [| |exact Hrun];
    apply Forall_forall; intros s Hs; apply filter_In in Hs; destruct Hs as [_ Hs];
    [exact Hs | now apply negb_true_iff].
Qed.

End Walk.

Definition exampleLine : jsstring := js "  fn".

Definition examplePosition : Position.t := Position.create 0 4.

Lemma walk_context_gate_witness :
  @walk exampleRuntime exampleProvider exampleLine examplePosition
    [contextSnippet (js "fn") (js "0"); contextSnippet (js "fn") (js "1");
     plainSnippet (js "fn")] [] false tt
  = @walk exampleRuntime exampleProvider exampleLine examplePosition
      [contextSnippet (js "fn") (js "1"); plainSnippet (js "fn")] [] false tt
  /\ exists character later,
      @walk exampleRuntime exampleProvider exampleLine examplePosition
        [contextSnippet (js "fn") (js "1"); plainSnippet (js "fn")] [] false tt
      = (Resolved
           ([] ++ makeEdit (contextSnippet (js "fn") (js "1")) examplePosition character
               :: later), tt)
      /\ Forall (fun e => hasContextEdit e = true) later.
Proof.
  split.
  - apply (proj1 (@walk_context_gate exampleRuntime exampleProvider exampleLine
                    examplePosition (contextSnippet (js "fn") (js "0"))
                    [contextSnippet (js "fn") (js "1"); plainSnippet (js "fn")]
                    [] false tt eq_refl)).
    reflexivity.
  - destruct (proj2 (@walk_context_gate exampleRuntime exampleProvider exampleLine
                       examplePosition (contextSnippet (js "fn") (js "1"))
                       [plainSnippet (js "fn")] [] false tt eq_refl)
                eq_refl _ _ eq_refl) as [character [later [_ [Hres [_ [Hall _]]]]]].
    exists character, later. split; [|exact Hall].
    rewrite <- Hres. reflexivity.
Defined.

(** ** The edits of [getTriggerSnippets] *)

Section Edits.

Context `{RT : JsRuntime} `{BP : BaseProvider}.

Lemma triggerFilter_matched (document : Document.t) (line : jsstring)
  (autoTrigger : option bool) (s : Snippet.t) :
  triggerFilter document line autoTrigger s = true ->
  exists m, getMatched s line = Some m.
Proof.
  unfold triggerFilter.
  destruct (truthyBool autoTrigger && negb (truthyBool (Snippet.autoTrigger s)));
    [discriminate|].
  destruct (getMatched s line) as [m|]; [eauto | discriminate].
Qed.

(** Where an edit of the result comes from: a snippet of the file type's
    snippets that passed the filter, with the text it matched. *)
Lemma emitted_edit_origin (getSnippets : jsstring -> outcome (list Snippet.t))
  (document : Document.t) (position : Position.t) (autoTrigger : option bool)
  (w w' : World) (edits : list SnippetEdit.t) (e : SnippetEdit.t) :
  getTriggerSnippetsFrom getSnippets document position autoTrigger w = (Resolved edits, w') ->
  In e edits ->
  exists all s m,
    getSnippets (Document.filetype document) = Resolved all
    /\ In s all
    /\ triggerFilter document (Document.getline document (Position.line position))
         autoTrigger s = true
    /\ getMatched s (Document.getline document (Position.line position)) = Some m
    /\ e = makeEdit s position (Position.character position - len m).
Proof.
  unfold getTriggerSnippetsFrom. intros Hrun Hin.
  destruct (truthyBool autoTrigger).
  { injection Hrun as <- <-. contradiction. }
  destruct (len (Document.getline document (Position.line position)) =? 0).
  { injection Hrun as <- <-. contradiction. }
  destruct (getSnippets (Document.filetype document)) as [all|err]; [|discriminate].
  destruct (walk_In _ _ _ _ _ _ _ _ Hrun Hin) as [s [character [Hs [Hstart ->]]]].
  apply sort_In, filter_In in Hs. destruct Hs as [Hall Hfilter].
  destruct (triggerFilter_matched _ _ _ _ Hfilter) as [m Hm].
  rewrite (getMatched_startCharacter _ _ _ position Hm) in Hstart.
  injection Hstart as <-. exists all, s, m. repeat split; assumption.
Qed.



End Edits.

(** A word character of the examples' editor: a letter, a digit or [_]. *)
Definition exampleIsWord (ch : jsstring) : bool :=
  match ch with
  | [c] => ((48 <=? c) && (c <=? 57) || (65 <=? c) && (c <=? 90)
            || (97 <=? c) && (c <=? 122) || (c =? 95))%N
  | _ => false
  end.

Definition exampleDocument (line : jsstring) : Document.t :=
  Document.mk (fun _ => line) (js "go") exampleIsWord.

Definition exampleConfig : SniphubConfig :=
  mkSniphubConfig (js "http://localhost:4000") None.

(** A provider whose catalog is [goCatalog]. *)
Definition goProvider : SniphubProvider :=
  mkSniphubProvider exampleConfig (Some (snippets goCatalog)) None.


Section StartColumn.

Context `{RT : JsRuntime} `{BP : BaseProvider}.


End StartColumn.


(** ** The [autoTrigger] field of a snippet *)

Section AutoTrigger.

Context `{RT : JsRuntime} `{BP : BaseProvider}.

Definition withAutoTrigger (value : option bool) (s : Snippet.t) : Snippet.t :=
  Snippet.mk (Snippet.filepath s) (Snippet.lnum s) (Snippet.body s) (Snippet.prefix s)
    (Snippet.description s) (Snippet.triggerKind s) (Snippet.filetype s)
    (Snippet.regex s) (Snippet.originRegex s) value (Snippet.context s)
    (Snippet.priority s).

(** Two snippets that differ in [autoTrigger] at most. *)
Definition sameButAutoTrigger (a b : Snippet.t) : Prop :=
  withAutoTrigger None a = withAutoTrigger None b.

(** Two results of [getSnippets] that differ in [autoTrigger] fields at most. *)
Definition sameCatalog (a b : outcome (list Snippet.t)) : Prop :=
  match a, b with
  | Resolved la, Resolved lb => Forall2 sameButAutoTrigger la lb
  | Rejected ea, Rejected eb => ea = eb
  | _, _ => False
  end.

Lemma sameButAutoTrigger_fields (a b : Snippet.t) :
  sameButAutoTrigger a b ->
  Snippet.prefix a = Snippet.prefix b
  /\ Snippet.regex a = Snippet.regex b
  /\ Snippet.triggerKind a = Snippet.triggerKind b
  /\ Snippet.context a = Snippet.context b
  /\ forall position character,
      makeEdit a position character = makeEdit b position character.
Proof.
  unfold sameButAutoTrigger, withAutoTrigger, makeEdit. intro H.
  injection H as H1 H2 H3 H4 H5 H6 H7 H8 H9 H10 H11.
  repeat split; try assumption. intros. congruence.
Qed.

Lemma sameButAutoTrigger_filter (document : Document.t) (line : jsstring)
  (autoTrigger : option bool) (a b : Snippet.t) :
  truthyBool autoTrigger = false ->
  sameButAutoTrigger a b ->
  triggerFilter document line autoTrigger a = triggerFilter document line autoTrigger b.
Proof.
  intros Hauto Hab.
  destruct (sameButAutoTrigger_fields _ _ Hab) as [Hp [Hr [Hk _]]].
  unfold triggerFilter, getMatched. rewrite Hauto, Hp, Hr, Hk. reflexivity.
Qed.

Lemma sameButAutoTrigger_compare (a b c d : Snippet.t) :
  sameButAutoTrigger a b -> sameButAutoTrigger c d ->
  compareContext a c = compareContext b d.
Proof.
  intros Hab Hcd.
  destruct (sameButAutoTrigger_fields _ _ Hab) as [_ [_ [_ [Hx _]]]].
  destruct (sameButAutoTrigger_fields _ _ Hcd) as [_ [_ [_ [Hy _]]]].
  unfold compareContext. now rewrite Hx, Hy.
Qed.

Lemma Forall2_filter_same (p q : Snippet.t -> bool) (la lb : list Snippet.t) :
  (forall a b, sameButAutoTrigger a b -> p a = q b) ->
  Forall2 sameButAutoTrigger la lb ->
  Forall2 sameButAutoTrigger (filter p la) (filter q lb).
Proof.
  intros Hpq H. induction H as [|a b la lb Hab Hl IH]; simpl; [constructor|].
  rewrite (Hpq a b Hab). destruct (q b); [constructor|]; assumption.
Qed.

Lemma Forall2_insertSorted_same (a b : Snippet.t) (la lb : list Snippet.t) :
  sameButAutoTrigger a b ->
  Forall2 sameButAutoTrigger la lb ->
  Forall2 sameButAutoTrigger (insertSorted compareContext a la)
    (insertSorted compareContext b lb).
Proof.
  intros Hab H. induction H as [|x y la lb Hxy Hl IH]; simpl.
  - repeat constructor. assumption.
  - rewrite (sameButAutoTrigger_compare _ _ _ _ Hab Hxy).
    destruct (compareContext b y <=? 0); repeat constructor; assumption.
Qed.

Lemma Forall2_sort_same (la lb : list Snippet.t) :
  Forall2 sameButAutoTrigger la lb ->
  Forall2 sameButAutoTrigger (sort compareContext la) (sort compareContext lb).
Proof.
  intro H. induction H as [|a b la lb Hab Hl IH]; simpl; [constructor|].
  now apply Forall2_insertSorted_same.
Qed.

Lemma Forall2_walk_same (line : jsstring) (position : Position.t)
  (la lb : list Snippet.t) :
  Forall2 sameButAutoTrigger la lb ->
  forall edits hasContext w,
    walk line position la edits hasContext w = walk line position lb edits hasContext w.
Proof.
  intro H. induction H as [|a b la lb Hab Hl IH]; intros edits hasContext w; simpl;
    [reflexivity|].
  destruct (sameButAutoTrigger_fields _ _ Hab) as [Hp [Hr [_ [Hc He]]]].
  unfold startCharacter. rewrite Hp, Hr, Hc.
  destruct (truthyStr (Snippet.context b)).
  - destruct (checkContext (valueOr (Snippet.context b)) w) as [valid w1].
    destruct valid; simpl; [|apply IH].
    destruct (Snippet.regex b) as [regex|].
    + destruct (exec regex line) as [[i ms0]|]; [|reflexivity]. rewrite He. apply IH.
    + rewrite He. apply IH.
  - destruct hasContext; [reflexivity|].
    destruct (Snippet.regex b) as [regex|].
    + destruct (exec regex line) as [[i ms0]|]; [|reflexivity]. rewrite He. apply IH.
    + rewrite He. apply IH.
Qed.

(** C9. The result of [getTriggerSnippets] does not depend on the
    [autoTrigger] field of any snippet: two catalogs that differ in these
    fields only give the same result for every document, position and
    [autoTrigger] flag. With the flag set the result is empty, and without
    it the test on the snippet's field is never taken. *)
Theorem autoTrigger_field_is_ignored :
  forall (getSnippets1 getSnippets2 : jsstring -> outcome (list Snippet.t)),
    (forall filetype, sameCatalog (getSnippets1 filetype) (getSnippets2 filetype)) ->
    forall (document : Document.t) (position : Position.t) (autoTrigger : option bool)
           (w : World),
      getTriggerSnippetsFrom getSnippets1 document position autoTrigger w
      = getTriggerSnippetsFrom getSnippets2 document position autoTrigger w
      /\ (truthyBool autoTrigger = true ->
          getTriggerSnippetsFrom getSnippets1 document position autoTrigger w
          = (Resolved [], w))
      /\ (truthyBool autoTrigger = false ->
          forall s : Snippet.t,
            truthyBool autoTrigger && negb (truthyBool (Snippet.autoTrigger s)) = false).
Proof.
  intros getSnippets1 getSnippets2 Hsame document position autoTrigger w.
  unfold getTriggerSnippetsFrom.
  destruct (truthyBool autoTrigger) eqn:Hauto.
  - split; [reflexivity|]. split; [reflexivity | discriminate].
  - split; [|split; [discriminate | reflexivity]].
    destruct (len (Document.getline document (Position.line position)) =? 0);
      [reflexivity|].
    specialize (Hsame (Document.filetype document)). unfold sameCatalog in Hsame.
    destruct (getSnippets1 (Document.filetype document)) as [la|ea],
        (getSnippets2 (Document.filetype document)) as [lb|eb];
      try contradiction; [|now subst].
    apply Forall2_walk_same, Forall2_sort_same, Forall2_filter_same; [|assumption].
    intros a b Hab. now apply sameButAutoTrigger_filter.
Qed.

End AutoTrigger.

Definition autoSnippet (name : jsstring) (value : option bool) : @Snippet.t exampleRuntime :=
  Snippet.mk (js "7") 0 (js "body") name name WordBoundary (js "go")
    None None value None None.

Lemma autoTrigger_field_is_ignored_witness :
  @getTriggerSnippetsFrom exampleRuntime exampleProvider
    (fun _ => Resolved [autoSnippet (js "fn") (Some true); autoSnippet (js "n") None])
    (exampleDocument (js "  fn")) (Position.create 0 4) None tt
  = @getTriggerSnippetsFrom exampleRuntime exampleProvider
      (fun _ => Resolved [autoSnippet (js "fn") (Some false); autoSnippet (js "n") (Some true)])
      (exampleDocument (js "  fn")) (Position.create 0 4) None tt.
Proof.
  apply (@autoTrigger_field_is_ignored exampleRuntime exampleProvider
           (fun _ => Resolved [autoSnippet (js "fn") (Some true); autoSnippet (js "n") None])
           (fun _ => Resolved [autoSnippet (js "fn") (Some false);
                               autoSnippet (js "n") (Some true)])).
  intro filetype. simpl. repeat constructor.
Defined.

(** ** The prefix detector *)

Section PrefixDetector.

Context `{RT : JsRuntime}.




Lemma getMatched_prefix (s : Snippet.t) (line : jsstring) :
  Snippet.regex s = None ->
  getMatched s line
  = if endsWith line (Snippet.prefix s) then Some (Snippet.prefix s) else None.
Proof.
  intro H. unfold getMatched. rewrite H.
  destruct (endsWith line (Snippet.prefix s)); reflexivity.
Qed.


End PrefixDetector.



(** ** Trigger kinds *)

Section TriggerKinds.

Context `{RT : JsRuntime}.








End TriggerKinds.


Definition kindSnippet (name : jsstring) (kind : TriggerKind) : @Snippet.t exampleRuntime :=
  Snippet.mk (js "7") 0 (js "body") name name kind (js "go") None None None None None.



(** ** The catalog *)

Section Catalog.

Context `{RT : JsRuntime} `{BP : BaseProvider}.

(** What [getSnippets] returns: the converted records whose file type is
    among [getFiletypes(filetype)]. *)
Lemma getSnippets_In (this : SniphubProvider) (filetype : jsstring)
  (items : list SnippetContent.t) (s : Snippet.t) :
  sniphubItems this = Some items ->
  exists all,
    getSnippets this filetype = Resolved all
    /\ (In s all <-> In s (mapFrom 0 items)
                     /\ In (Snippet.filetype s) (getFiletypes filetype)).
Proof.
  intro Hitems. unfold getSnippets, mapItems. rewrite Hitems.
  eexists. split; [reflexivity|]. rewrite filter_In, includes_In. reflexivity.
Qed.

(** The wildcard is not added: when [getFiletypes] does not list it, no
    snippet for [all] is returned. *)
Lemma getSnippets_without_wildcard (this : SniphubProvider) (filetype : jsstring)
  (all : list Snippet.t) (s : Snippet.t) :
  ~ In (js "all") (getFiletypes filetype) ->
  getSnippets this filetype = Resolved all ->
  In s all -> Snippet.filetype s <> js "all".
Proof.
  intros Hno Hget Hin Heq. unfold getSnippets in Hget.
  destruct (mapItems this) as [l|e]; [|discriminate].
  injection Hget as <-. apply filter_In in Hin. destruct Hin as [_ Hin].
  apply includes_In in Hin. rewrite Heq in Hin. contradiction.
Qed.

(** A failed [init] leaves [sniphubItems] as it was. *)
Lemma init_failure_keeps_items (this this' : SniphubProvider) (response : Response)
  (events : list Event) (e : Error) :
  init this response = (events, this', Rejected e) ->
  sniphubItems this' = sniphubItems this.
Proof.
  unfold init. destruct (newURL (apiUrl (config this))) as [url|].
  - destruct (loadAllSnippets _ response) as [evs [r|err]]; [discriminate|].
    intros [= _ <- _]. reflexivity.
  - intros [= _ <- _]. reflexivity.
Qed.


Lemma existsb_mapFrom (name filetype : jsstring) (items : list SnippetContent.t) :
  forall counter,
    existsb (fun item : Snippet.t => streq (Snippet.prefix item) name
                                     && streq (Snippet.filetype item) filetype)
      (mapFrom counter items)
    = existsb (fun item => streq (SnippetContent.name item) name
                           && streq (SnippetContent.language item) filetype)
        items.
Proof.
  induction items as [|item rest IH]; intro counter; simpl; [reflexivity|].
  now rewrite IH.
Qed.

(** C8. When the name entered for a new snippet is, in the catalog that
    [createSnippet] reloads first, already the name of a snippet of the
    document's file type, the method shows the message and returns: the
    only request sent is the GET of the reload, no POST is sent whatever
    the server would have answered, and the catalog is the reloaded one. *)
Theorem duplicate_name_aborts_before_post :
  forall (this : SniphubProvider) (text : option jsstring) (doc : Document.t)
         (name : jsstring) (postResponse : Response) (url : URL) (statusCode : Z)
         (chunks : list jsstring) (catalog : HttpResponseItem)
         (item : SnippetContent.t),
    name <> [] ->
    newURL (apiUrl (config this)) = Some url ->
    200 <= statusCode < 300 ->
    JSON_parse (concat chunks) = Some catalog ->
    In item (snippets catalog) ->
    SnippetContent.name item = name ->
    SnippetContent.language item = Document.filetype doc ->
    exists headers this',
      createSnippet this text doc (Some name) (ResponseEnd statusCode chunks) postResponse
      = ([RequestInput (js "Snippet Name");
          HttpRequest (href url ++ js "/snippets") GET headers None;
          ShowMessage (alreadyExistsMessage name)],
         this', AlreadyExists)
      /\ existsb isPost
           (fst (fst (createSnippet this text doc (Some name)
                        (ResponseEnd statusCode chunks) postResponse))) = false
      /\ sniphubItems this' = Some (snippets catalog).
Proof.
  intros this text doc name postResponse url statusCode chunks catalog item
    Hname Hurl Hstatus Hparse Hin Hiname Hilang.
  assert (Hdup : existsb (fun it => streq (SnippetContent.name it) name
                                    && streq (SnippetContent.language it)
                                         (Document.filetype doc))
                   (snippets catalog) = true).
  { apply existsb_exists. exists item. split; [assumption|].
    rewrite Hiname, Hilang, !streq_refl. reflexivity. }
  assert (Hrun : exists headers this',
             createSnippet this text doc (Some name) (ResponseEnd statusCode chunks)
               postResponse
             = ([RequestInput (js "Snippet Name");
                 HttpRequest (href url ++ js "/snippets") GET headers None;
                 ShowMessage (alreadyExistsMessage name)],
                this', AlreadyExists)
             /\ sniphubItems this' = Some (snippets catalog)).
  { unfold createSnippet.
    destruct name as [|c name']; [contradiction|].
    cbn [truthyStr negb valueOr].
    unfold init. rewrite Hurl. unfold loadAllSnippets, promisifyHttpRequest.
    cbn [baseHttpConfig cfg_method cfg_path cfg_url cfg_headers].
    unfold withAuthorization.
    cbn [config].
    replace ((statusCode <? 200) || (statusCode >=? 300)) with false
      by (symmetry; apply orb_false_iff; split;
          [apply Z.ltb_ge; lia | rewrite Z.geb_leb; apply Z.leb_gt; lia]).
    destruct (truthyStr (apiToken (config this)));
      cbn [cfg_method cfg_path cfg_url cfg_headers truthyStr];
      rewrite Hparse; cbn [mapItems sniphubItems];
      rewrite existsb_mapFrom, Hdup;
      do 2 eexists; (split; [reflexivity | reflexivity]). }
  destruct Hrun as [headers [this' [Hrun Hitems]]].
  exists headers, this'. rewrite Hrun. repeat split; assumption.
Qed.

End Catalog.

Lemma duplicate_name_aborts_before_post_witness :
  exists headers this',
    @createSnippet exampleRuntime (newProvider exampleConfig) (Some (js "func $1() {}"))
      (exampleDocument (js "fn")) (Some (js "fn"))
      (ResponseEnd 200 [goCatalogText]) (ResponseEnd 201 [js "created"])
    = ([RequestInput (js "Snippet Name");
        HttpRequest (js "http://localhost:4000" ++ js "/snippets") GET headers None;
        ShowMessage (alreadyExistsMessage (js "fn"))],
       this', AlreadyExists)
    /\ existsb isPost
         (fst (fst (@createSnippet exampleRuntime (newProvider exampleConfig)
                      (Some (js "func $1() {}")) (exampleDocument (js "fn"))
                      (Some (js "fn")) (ResponseEnd 200 [goCatalogText])
                      (ResponseEnd 201 [js "created"])))) = false
    /\ sniphubItems this' = Some (snippets goCatalog).
Proof.
  apply (@duplicate_name_aborts_before_post exampleRuntime (newProvider exampleConfig)
           (Some (js "func $1() {}")) (exampleDocument (js "fn")) (js "fn")
           (ResponseEnd 201 [js "created"])
           (mkURL (js "http://localhost:4000") (js "localhost") (js "4000") (js "http:"))
           200 [goCatalogText] goCatalog
           (SnippetContent.mk (js "func $1() {}") (js "2024-01-01") (js "17") (js "go")
              (js "fn") true (js "2024-01-01"))).
  - discriminate.
  - reflexivity.
  - lia.
  - reflexivity.
  - left. reflexivity.
  - reflexivity.
  - reflexivity.
Defined.

(** A catalog with one snippet for every file type. *)
Definition wildcardProvider : SniphubProvider :=
  mkSniphubProvider exampleConfig
    (Some [SnippetContent.mk (js "TODO: $1") (js "2024-01-01") (js "23") (js "all")
             (js "todo") true (js "2024-01-01")])
    None.

(** C3, at a catalog holding one snippet whose file type is the wildcard
    [all], for the file type [go] without aliases: [getSnippets] returns
    nothing, while [getSnippetFiles], which adds the wildcard to the file
    types, lists the snippet; and no request on a line ending in the
    snippet's name returns it. *)
Theorem getSnippets_omits_wildcard :
  @getSnippets exampleRuntime exampleProvider wildcardProvider (js "go") = Resolved []
  /\ @getSnippetFiles exampleProvider wildcardProvider (js "go") = Resolved [js "23"]
  /\ @getTriggerSnippets exampleRuntime exampleProvider wildcardProvider
       (exampleDocument (js "todo")) (Position.create 0 4) None tt
     = (Resolved [], tt).
Proof. repeat split. Qed.

(** C7, at a new provider whose first load fails, by a network error or by
    a response that does not parse: [sniphubItems] stays [undefined], and a
    request for the line [fn] with the cursor at its end throws a
    [TypeError] instead of returning an empty list. *)
Theorem failed_initial_load_then_match_throws :
  (let '(_, this', r) := @init exampleRuntime (newProvider exampleConfig) ResponseError in
   r = Rejected RequestError
   /\ sniphubItems this' = None
   /\ @getTriggerSnippets exampleRuntime exampleProvider this'
        (exampleDocument (js "fn")) (Position.create 0 2) None tt
      = (Rejected TypeError, tt))
  /\ (let '(_, this', r) :=
        @init exampleRuntime (newProvider exampleConfig) (ResponseEnd 200 [js "<html>"]) in
      r = Rejected SyntaxError
      /\ sniphubItems this' = None
      /\ @getTriggerSnippets exampleRuntime exampleProvider this'
           (exampleDocument (js "fn")) (Position.create 0 2) None tt
         = (Rejected TypeError, tt)).
Proof. repeat split. Qed.

(** ** The examples of the specification, run on the code *)

(** A [LineBegin] snippet [//]: the line of two blanks and [//] passes the
    filter, the line [x //] does not. *)
Example lineBegin_after_blanks :
  @triggerFilter exampleRuntime (exampleDocument (js "  //")) (js "  //") None
    (kindSnippet (js "//") LineBegin) = true.
Proof. reflexivity. Qed.

Example lineBegin_after_text :
  @triggerFilter exampleRuntime (exampleDocument (js "x //")) (js "x //") None
    (kindSnippet (js "//") LineBegin) = false.
Proof. reflexivity. Qed.

(** A [WordBoundary] snippet is not offered inside a word. *)
Example wordBoundary_inside_word :
  @getTriggerSnippets exampleRuntime exampleProvider goProvider
    (exampleDocument (js "xfn")) (Position.create 0 3) None tt
  = (Resolved [], tt).
Proof. reflexivity. Qed.

(** With the [autoTrigger] flag nothing is returned, not even without a
    catalog. *)
Example autoTrigger_returns_nothing :
  @getTriggerSnippets exampleRuntime exampleProvider (newProvider exampleConfig)
    (exampleDocument (js "fn")) (Position.create 0 2) (Some true) tt
  = (Resolved [], tt).
Proof. reflexivity. Qed.

(** A new name is posted, with the headers of a JSON body. *)
Example new_name_is_posted :
  existsb isPost
    (fst (fst (@createSnippet exampleRuntime (newProvider exampleConfig)
                 (Some (js "for $1 {}")) (exampleDocument (js "for")) (Some (js "for"))
                 (ResponseEnd 200 [goCatalogText]) (ResponseEnd 201 [js "created"]))))
  = true.
Proof. reflexivity. Qed.

(** * Further properties of the provider *)

From Stdlib Require Import Sorted.

(** ** What [getTriggerSnippets] returns, in full *)

Section MatcherResult.

Context `{RT : JsRuntime} `{BP : BaseProvider}.










End MatcherResult.


(** ** When [getTriggerSnippets] fails, and what the provider returns *)

Section ProviderResult.

Context `{RT : JsRuntime} `{BP : BaseProvider}.







End ProviderResult.



(** ** The cursor's column *)

Section CursorColumn.

Context `{RT : JsRuntime} `{BP : BaseProvider}.







End CursorColumn.

(** ** The snippets and the files of a file type *)

Section CatalogViews.

Context `{RT : JsRuntime} `{BP : BaseProvider}.

Lemma mapFrom_In (items : list SnippetContent.t) (s : Snippet.t) :
  forall counter,
    In s (mapFrom counter items)
    <-> exists i item, nth_error items i = Some item
                       /\ s = toSnippet (counter + Z.of_nat i) item.
Proof.
  induction items as [|x rest IH]; intro counter; simpl.
  - split; [contradiction|]. intros [[|i] [item [H _]]]; discriminate.
  - rewrite IH. split.
    + intros [<-|[i [item [Hi ->]]]].
      * exists 0%nat, x. split; [reflexivity|]. f_equal. lia.
      * exists (S i), item. split; [exact Hi|]. f_equal. lia.
    + intros [[|i] [item [Hi ->]]]; simpl in Hi.
      * injection Hi as ->. left. f_equal. lia.
      * right. exists i, item. split; [exact Hi|]. f_equal. lia.
Qed.

Lemma mapFrom_lnum_sorted (p : Snippet.t -> bool) (items : list SnippetContent.t) :
  forall counter,
    StronglySorted Z.lt (map Snippet.lnum (filter p (mapFrom counter items)))
    /\ Forall (fun n => counter <= n) (map Snippet.lnum (filter p (mapFrom counter items))).
Proof.
  induction items as [|x rest IH]; intro counter; simpl.
  - split; constructor.
  - destruct (IH (counter + 1)) as [Hsorted Hlow].
    assert (Hlow' : Forall (fun n => counter < n)
                      (map Snippet.lnum (filter p (mapFrom (counter + 1) rest)))).
    { eapply Forall_impl; [|exact Hlow]. simpl. intros. lia. }
    destruct (p (toSnippet counter x)); simpl.
    + split; constructor; try assumption; try lia.
      eapply Forall_impl; [|exact Hlow']. simpl. intros. lia.
    + split; [assumption|]. eapply Forall_impl; [|exact Hlow']. simpl. intros. lia.
Qed.

(** X5. [getSnippets] on a loaded catalog: the snippets returned are the
    conversions of the records whose language is among the file types
    [getFiletypes] gives, each with the index of its record in the whole
    catalog as [lnum], and they come in catalog order: their [lnum]s
    increase strictly. *)
Theorem getSnippets_keeps_catalog_order :
  forall (this : SniphubProvider) (items : list SnippetContent.t) (filetype : jsstring),
    sniphubItems this = Some items ->
    exists all,
      getSnippets this filetype = Resolved all
      /\ (forall s, In s all
                    <-> exists i item,
                          nth_error items i = Some item
                          /\ s = toSnippet (Z.of_nat i) item
                          /\ In (SnippetContent.language item) (getFiletypes filetype))
      /\ StronglySorted Z.lt (map Snippet.lnum all).
Proof.
  intros this items filetype Hitems. unfold getSnippets, mapItems. rewrite Hitems.
  eexists. split; [reflexivity|]. split.
  - intro s. rewrite filter_In, includes_In, mapFrom_In. split.
    + intros [[i [item [Hi ->]]] Hft]. exists i, item. repeat split; assumption.
    + intros [i [item [Hi [-> Hft]]]]. split; [|exact Hft]. now exists i, item.
  - apply mapFrom_lnum_sorted.
Qed.

(** X6. [getSnippetFiles] on a loaded catalog lists, in catalog order, the
    ids of the records whose language is among the file types of
    [getFiletypes] or is the wildcard [all]; so it lists the file of every
    snippet [getSnippets] returns for the file type. Without a catalog both
    throw a [TypeError]. *)
Theorem getSnippetFiles_covers_getSnippets :
  (forall (this : SniphubProvider) (items : list SnippetContent.t) (filetype : jsstring),
      sniphubItems this = Some items ->
      exists files,
        getSnippetFiles this filetype = Resolved files
        /\ (forall f, In f files
                      <-> exists item,
                            In item items /\ SnippetContent.id item = f
                            /\ (In (SnippetContent.language item) (getFiletypes filetype)
                                \/ SnippetContent.language item = js "all"))
        /\ (forall all s, getSnippets this filetype = Resolved all -> In s all ->
                          In (Snippet.filepath s) files))
  /\ (forall (this : SniphubProvider) (filetype : jsstring),
         sniphubItems this = None ->
         getSnippetFiles this filetype = Rejected TypeError
         /\ getSnippets this filetype = Rejected TypeError).
Proof.
  split.
  - intros this items filetype Hitems.
    assert (Hfiles : forall f,
               In f (map SnippetContent.id
                       (filter (fun snippet =>
                                  includes (getFiletypes filetype ++ [js "all"])
                                    (SnippetContent.language snippet)) items))
               <-> exists item,
                     In item items /\ SnippetContent.id item = f
                     /\ (In (SnippetContent.language item) (getFiletypes filetype)
                         \/ SnippetContent.language item = js "all")).
    { intro f. rewrite in_map_iff. split.
      - intros [item [Hid Hin]]. apply filter_In in Hin. destruct Hin as [Hin Hinc].
        apply includes_In, in_app_or in Hinc. exists item. repeat split; try assumption.
        destruct Hinc as [H|[H|[]]]; [now left | now right].
      - intros [item [Hin [Hid Hlang]]]. exists item. split; [exact Hid|].
        apply filter_In. split; [exact Hin|]. apply includes_In, in_or_app.
        destruct Hlang as [H|H]; [now left | right; left; now symmetry]. }
    unfold getSnippetFiles. rewrite Hitems. eexists. split; [reflexivity|].
    split; [exact Hfiles|].
    intros all s Hget Hs. unfold getSnippets, mapItems in Hget. rewrite Hitems in Hget.
    injection Hget as <-. apply filter_In in Hs. destruct Hs as [Hs Hinc].
    apply includes_In in Hinc. apply mapFrom_In in Hs. destruct Hs as [i [item [Hi ->]]].
    apply Hfiles. exists item. repeat split.
    + eapply nth_error_In. exact Hi.
    + now left.
  - intros this filetype Hitems. unfold getSnippetFiles, getSnippets, mapItems.
    rewrite Hitems. split; reflexivity.
Qed.

End CatalogViews.

Lemma getSnippets_keeps_catalog_order_witness :
  exists all,
    @getSnippets exampleRuntime exampleProvider goProvider (js "go") = Resolved all
    /\ StronglySorted Z.lt (map Snippet.lnum all).
Proof.
  destruct (@getSnippets_keeps_catalog_order exampleRuntime exampleProvider goProvider
              (snippets goCatalog) (js "go") eq_refl) as [all [Hget [_ Hsorted]]].
  exists all. split; assumption.
Defined.

Lemma getSnippetFiles_covers_getSnippets_witness :
  (exists files,
      @getSnippetFiles exampleProvider wildcardProvider (js "go") = Resolved files
      /\ In (js "23") files)
  /\ @getSnippetFiles exampleProvider (newProvider exampleConfig) (js "go")
     = Rejected TypeError.
Proof.
  split.
  - destruct (proj1 (@getSnippetFiles_covers_getSnippets exampleRuntime exampleProvider)
                wildcardProvider _ (js "go") eq_refl) as [files [Hget [Hin _]]].
    exists files. split; [exact Hget|]. apply Hin.
    eexists. split; [left; reflexivity|]. split; [reflexivity | right; reflexivity].
  - exact (proj1 (proj2 (@getSnippetFiles_covers_getSnippets exampleRuntime
                           exampleProvider)
                    (newProvider exampleConfig) (js "go") eq_refl)).
Defined.

(** ** Requests to the store *)

(** [headers[key]] *)
Fixpoint getHeader (headers : Headers) (key : jsstring) : option HeaderValue :=
  match headers with
  | [] => None
  | (k, v) :: rest => if streq k key then Some v else getHeader rest key
  end.

Definition isSuccess (statusCode : Z) : bool :=
  (200 <=? statusCode) && (statusCode <? 300).


Section Requests.

Context `{RT : JsRuntime} `{BP : BaseProvider}.

Lemma getHeader_setHeader_same (headers : Headers) (key : jsstring) (value : HeaderValue) :
  getHeader (setHeader headers key value) key = Some value.
Proof.
  induction headers as [|[k v] rest IH]; simpl.
  - now rewrite streq_refl.
  - destruct (streq k key) eqn:E; simpl; rewrite E; [reflexivity | exact IH].
Qed.

Lemma getHeader_setHeader_other (headers : Headers) (key other : jsstring)
  (value : HeaderValue) :
  key <> other ->
  getHeader (setHeader headers key value) other = getHeader headers other.
Proof.
  intro Hneq. induction headers as [|[k v] rest IH]; simpl.
  - apply streq_neq in Hneq. now rewrite Hneq.
  - destruct (streq k key) eqn:E; simpl.
    + apply streq_eq in E. subst k. apply streq_neq in Hneq. now rewrite Hneq.
    + destruct (streq k other); [reflexivity | exact IH].
Qed.

Lemma status_outside (statusCode : Z) :
  (statusCode <? 200) || (statusCode >=? 300) = negb (isSuccess statusCode).
Proof.
  unfold isSuccess. rewrite Z.geb_leb.
  destruct (statusCode <? 200) eqn:E1, (300 <=? statusCode) eqn:E2,
    (200 <=? statusCode) eqn:E3, (statusCode <? 300) eqn:E4; try reflexivity;
    rewrite ?Z.ltb_lt, ?Z.ltb_ge, ?Z.leb_le, ?Z.leb_gt in *; lia.
Qed.

(** X7. [promisifyHttpRequest] for a POST with a body that is not empty:
    one request is sent, to the URL of the configuration followed by the
    path, with that body; its headers announce JSON, give the length of
    the body as [Content-Length] and keep every other header of the
    configuration. The promise resolves with what [onEnd] makes of the
    chunks exactly for a status from 200 to 299; any other status rejects
    with that status without [onEnd] being called, and a failing request
    rejects. *)
Theorem promisifyHttpRequest_post :
  forall (T : Type) (config : HttpConfig) (onEnd : list jsstring -> outcome T)
         (body : jsstring) (response : Response),
    cfg_method config = POST ->
    body <> [] ->
    exists headers,
      promisifyHttpRequest config onEnd (Some body) response
      = ([HttpRequest
            (href (cfg_url config)
             ++ match cfg_path config with Some p => p | None => js "undefined" end)
            POST headers (Some body)],
         match response with
         | ResponseError => Rejected RequestError
         | ResponseEnd statusCode chunks =>
             if isSuccess statusCode then onEnd chunks
             else Rejected (StatusError statusCode)
         end)
      /\ getHeader headers (js "Content-Length") = Some (HNumber (len body))
      /\ getHeader headers (js "Content-Type") = Some (HString (js "application/json"))
      /\ getHeader headers (js "Accept") = Some (HString (js "application/json"))
      /\ forall key,
          key <> js "Accept" -> key <> js "Content-Type" -> key <> js "Content-Length" ->
          getHeader headers key
          = getHeader (match cfg_headers config with Some h => h | None => [] end) key.
Proof.
  intros T config onEnd body response Hpost Hbody.
  unfold promisifyHttpRequest. rewrite Hpost.
  destruct body as [|c body']; [contradiction|].
  replace (negb (len (c :: body') =? 0)) with true
    by (unfold len; simpl length; symmetry; apply negb_true_iff, Z.eqb_neq; lia).
  cbn [truthyStr]. eexists. split; [|split; [|split; [|split]]].
  - destruct response as [|statusCode chunks]; [reflexivity|].
    rewrite status_outside. destruct (isSuccess statusCode); reflexivity.
  - apply getHeader_setHeader_same.
  - rewrite getHeader_setHeader_other by discriminate. apply getHeader_setHeader_same.
  - rewrite !getHeader_setHeader_other by discriminate. apply getHeader_setHeader_same.
  - intros key H1 H2 H3. rewrite !getHeader_setHeader_other by congruence. reflexivity.
Qed.


End Requests.


Lemma promisifyHttpRequest_post_witness :
  exists headers,
    @promisifyHttpRequest unit
      (mkHttpConfig None (js "localhost") (js "4000") (js "http:") (Some (js "/snippets"))
         POST (mkURL (js "http://localhost:4000") (js "localhost") (js "4000") (js "http:")))
      (fun _ => Resolved tt) (Some (js "{}")) (ResponseEnd 404 [])
    = ([HttpRequest (js "http://localhost:4000" ++ js "/snippets") POST headers
          (Some (js "{}"))],
       Rejected (StatusError 404))
    /\ getHeader headers (js "Content-Length") = Some (HNumber 2).
Proof.
  destruct (@promisifyHttpRequest_post unit
              (mkHttpConfig None (js "localhost") (js "4000") (js "http:")
                 (Some (js "/snippets")) POST
                 (mkURL (js "http://localhost:4000") (js "localhost") (js "4000")
                    (js "http:")))
              (fun _ => Resolved tt) (js "{}") (ResponseEnd 404 []) eq_refl
              ltac:(discriminate)) as [headers [Hrun [Hlength _]]].
  exists headers. split; [exact Hrun | exact Hlength].
Defined.


Section Creation.

Context `{RT : JsRuntime} `{BP : BaseProvider}.

(** Whether a record has the name and the language asked for. *)
Definition sameNameAndLanguage (name filetype : jsstring) (item : SnippetContent.t) : bool :=
  streq (SnippetContent.name item) name && streq (SnippetContent.language item) filetype.

Definition isMessage (e : Event) : bool :=
  match e with
  | ShowMessage _ => true
  | _ => false
  end.



End Creation.


Section CreationGuards.

Context `{RT : JsRuntime} `{BP : BaseProvider}.

(** X10. Whatever the answer to the prompt and the answers of the server,
    [createSnippet] sends at most one POST, and sends it only when a name
    was entered, the reload succeeded and no record of the reloaded catalog
    has that name for the document's file type (the comparison is exact
    and on the document's file type only: aliases and the wildcard do not
    count). A message is shown only in a call that sends no POST and ends
    as a duplicate, and a call ends with a created snippet only if it sent
    the POST. *)
Theorem createSnippet_posts_only_new_names :
  forall (this : SniphubProvider) (text : option jsstring) (doc : Document.t)
         (name : option jsstring) (getResponse postResponse : Response),
    let events :=
      fst (fst (createSnippet this text doc name getResponse postResponse)) in
    let finish := snd (createSnippet this text doc name getResponse postResponse) in
    (length (filter isPost events) <= 1)%nat
    /\ (existsb isPost events = true ->
        truthyStr name = true
        /\ exists statusCode chunks catalog,
            getResponse = ResponseEnd statusCode chunks
            /\ isSuccess statusCode = true
            /\ JSON_parse (concat chunks) = Some catalog
            /\ existsb (sameNameAndLanguage (valueOr name) (Document.filetype doc))
                 (snippets catalog) = false)
    /\ (existsb isMessage events = true ->
        existsb isPost events = false /\ finish = AlreadyExists)
    /\ (forall newSnippet, finish = Posted newSnippet -> existsb isPost events = true).
Proof.
  intros this text doc name getResponse postResponse.
  unfold createSnippet.
  destruct (truthyStr name) eqn:Hname; cbn [negb].
  2: { cbn. repeat split; intros; try discriminate; lia. }
  unfold init.
  destruct (newURL (apiUrl (config this))) as [url|].
  2: { cbn. repeat split; intros; try discriminate; lia. }
  unfold loadAllSnippets, promisifyHttpRequest, withAuthorization.
  cbn [baseHttpConfig cfg_method cfg_path cfg_url cfg_headers config].
  destruct (truthyStr (apiToken (config this))) eqn:Htoken;
    cbn [cfg_method cfg_path cfg_url cfg_headers truthyStr];
    (destruct getResponse as [|statusCode chunks];
     [cbn; repeat split; intros; try discriminate; lia|]);
    rewrite status_outside;
    (destruct (isSuccess statusCode) eqn:Hstatus; cbn [negb];
     [|cbn; repeat split; intros; try discriminate; lia]);
    (destruct (JSON_parse (concat chunks)) as [catalog|] eqn:Hparse;
     [|cbn; repeat split; intros; try discriminate; lia]);
    cbn [mapItems sniphubItems]; rewrite existsb_mapFrom;
    fold (sameNameAndLanguage (valueOr name) (Document.filetype doc));
    (destruct (existsb (sameNameAndLanguage (valueOr name) (Document.filetype doc))
                 (snippets catalog)) eqn:Hdup;
     [cbn; repeat split; intros; try discriminate; lia|]);
    cbn [baseHttpConfig cfg_method cfg_path cfg_url cfg_headers truthyStr config];
    rewrite ?Htoken;
    cbn [baseHttpConfig cfg_method cfg_path cfg_url cfg_headers truthyStr config];
    match goal with
    | |- context [len ?b =? 0] => destruct (len b =? 0)
    end; cbn [negb];
    (destruct postResponse as [|postStatus postChunks];
     [|rewrite status_outside; destruct (isSuccess postStatus); cbn [negb]]);
    cbn; (repeat split; intros; try discriminate; try lia; try reflexivity);
    do 3 eexists; repeat split; eassumption.
Qed.

End CreationGuards.

(** ** Trigger kinds compared, and the range at the end of the line *)

Section KindsAndRanges.

Context `{RT : JsRuntime} `{BP : BaseProvider}.

Definition withTriggerKind (kind : TriggerKind) (s : Snippet.t) : Snippet.t :=
  Snippet.mk (Snippet.filepath s) (Snippet.lnum s) (Snippet.body s) (Snippet.prefix s)
    (Snippet.description s) kind (Snippet.filetype s) (Snippet.regex s)
    (Snippet.originRegex s) (Snippet.autoTrigger s) (Snippet.context s)
    (Snippet.priority s).

Lemma whiteSpace_only_ends_in_whiteSpace (pre : jsstring) :
  forallb isWhiteSpace pre = true ->
  (len pre =? 0) || testWhiteSpaceAtEnd pre = true.
Proof.
  intro H. unfold testWhiteSpaceAtEnd. destruct (rev pre) as [|c r] eqn:E.
  - apply (f_equal (@rev N)) in E. rewrite rev_involutive in E. subst pre. reflexivity.
  - rewrite forallb_forall in H. rewrite (H c), orb_true_r; [reflexivity|].
    apply in_rev. rewrite E. now left.
Qed.

(** X11. The trigger kinds by strictness, for one snippet on one line:
    what passes as [LineBegin] passes as [SpaceBefore], what passes under
    any kind passes as [InWord], and when the matched text is the whole
    line the kind makes no difference. *)
Theorem trigger_kinds_by_strictness :
  forall (document : Document.t) (line : jsstring) (autoTrigger : option bool)
         (s : Snippet.t),
    (triggerFilter document line autoTrigger (withTriggerKind LineBegin s) = true ->
     triggerFilter document line autoTrigger (withTriggerKind SpaceBefore s) = true)
    /\ (forall kind,
           triggerFilter document line autoTrigger (withTriggerKind kind s) = true ->
           triggerFilter document line autoTrigger (withTriggerKind InWord s) = true)
    /\ (forall kind,
           getMatched s line = Some line ->
           triggerFilter document line autoTrigger (withTriggerKind kind s)
           = triggerFilter document line autoTrigger (withTriggerKind InWord s)).
Proof.
  intros document line autoTrigger s. unfold triggerFilter, getMatched. simpl.
  destruct (truthyBool autoTrigger && negb (truthyBool (Snippet.autoTrigger s))).
  { repeat split; intros; try discriminate; reflexivity. }
  fold (getMatched s line). destruct (getMatched s line) as [m|].
  2: { repeat split; intros; try discriminate; reflexivity. }
  split; [|split].
  - intro H. apply streq_eq, trim_nil in H.
    now apply whiteSpace_only_ends_in_whiteSpace.
  - reflexivity.
  - intros kind Hm. injection Hm as ->.
    replace (slice line 0 (len line - len line)) with (@nil N).
    + destruct kind; reflexivity.
    + rewrite slice_firstn by (pose proof (len_nonneg line); lia).
      now rewrite Z.sub_diag.
Qed.

Lemma slice_suffix (pre m : jsstring) :
  slice (pre ++ m) (len pre) (len (pre ++ m)) = m.
Proof.
  unfold slice, relativeIndex. rewrite len_app.
  pose proof (len_nonneg pre) as Hpre. pose proof (len_nonneg m) as Hm.
  destruct (len pre <? 0) eqn:E1; [apply Z.ltb_lt in E1; lia|].
  destruct (len pre + len m <? 0) eqn:E2; [apply Z.ltb_lt in E2; lia|].
  rewrite Z.min_l by lia. rewrite Z.min_l by lia.
  replace (len pre + len m - len pre) with (len m) by lia.
  rewrite Z.max_l by lia. unfold len. rewrite !Nat2Z.id.
  rewrite skipn_app, skipn_all, Nat.sub_diag. simpl. apply firstn_all.
Qed.

(** X12. With the cursor at the end of its line, every edit the provider
    returns has a range inside the line that ends at the cursor and holds
    exactly the name of the snippet: replacing the range replaces the
    trigger text and nothing else. *)
Theorem range_holds_name_at_line_end :
  forall (this : SniphubProvider) (document : Document.t) (position : Position.t)
         (autoTrigger : option bool) (w w' : World) (edits : list SnippetEdit.t)
         (e : SnippetEdit.t),
    getTriggerSnippets this document position autoTrigger w = (Resolved edits, w') ->
    In e edits ->
    Position.character position = len (Document.getline document (Position.line position)) ->
    let line := Document.getline document (Position.line position) in
    let first := Position.character (Range.start (SnippetEdit.range e)) in
    let last := Position.character (Range.end_ (SnippetEdit.range e)) in
    0 <= first <= last
    /\ last = len line
    /\ slice line first last = SnippetEdit.prefix e.
Proof.
  intros this document position autoTrigger w w' edits e Hrun Hin Hend line first last.
  destruct (emitted_edit_origin _ _ _ _ _ _ _ _ Hrun Hin)
    as [all [s [m [Hall [Hs [_ [Hm ->]]]]]]].
  assert (Hregex : Snippet.regex s = None).
  { unfold getSnippets in Hall. destruct (mapItems this) as [l|err] eqn:El; [|discriminate].
    injection Hall as <-. apply filter_In in Hs. destruct Hs as [Hs _].
    unfold mapItems in El. destruct (sniphubItems this) as [items|]; [|discriminate].
    injection El as <-. apply mapFrom_In in Hs. destruct Hs as [i [item [_ ->]]].
    reflexivity. }
  fold line in Hm, Hend. rewrite getMatched_prefix in Hm by assumption.
  destruct (endsWith line (Snippet.prefix s)) eqn:E; [|discriminate].
  injection Hm as <-. apply endsWith_suffix in E. destruct E as [pre Hpre].
  subst first last. simpl. rewrite Hend, Hpre, len_app.
  pose proof (len_nonneg pre). pose proof (len_nonneg (Snippet.prefix s)).
  repeat split; try lia.
  replace (len pre + len (Snippet.prefix s) - len (Snippet.prefix s)) with (len pre)
    by lia.
  rewrite <- len_app. apply slice_suffix.
Qed.

End KindsAndRanges.

Lemma trigger_kinds_by_strictness_witness :
  @triggerFilter exampleRuntime (exampleDocument (js "  //")) (js "  //") None
    (withTriggerKind SpaceBefore (kindSnippet (js "//") LineBegin)) = true
  /\ @triggerFilter exampleRuntime (exampleDocument (js "  //")) (js "  //") None
       (withTriggerKind InWord (kindSnippet (js "//") LineBegin)) = true.
Proof.
  destruct (@trigger_kinds_by_strictness exampleRuntime (exampleDocument (js "  //"))
              (js "  //") None (kindSnippet (js "//") LineBegin)) as [H1 [H2 _]].
  split; [exact (H1 eq_refl) | exact (H2 LineBegin eq_refl)].
Defined.

Lemma range_holds_name_at_line_end_witness :
  exists e,
    @getTriggerSnippets exampleRuntime exampleProvider goProvider
      (exampleDocument (js "  fn")) (Position.create 0 4) None tt
    = (Resolved [e], tt)
    /\ slice (js "  fn") (Position.character (Range.start (SnippetEdit.range e)))
         (Position.character (Range.end_ (SnippetEdit.range e)))
       = SnippetEdit.prefix e.
Proof.
  eexists. split; [reflexivity|].
  exact (proj2 (proj2 (@range_holds_name_at_line_end exampleRuntime exampleProvider
                         goProvider (exampleDocument (js "  fn")) (Position.create 0 4)
                         None tt tt _ _ eq_refl (or_introl eq_refl) eq_refl))).
Defined.
